(** * picture-compressor: the geometry resolver, the renderer and the
      orchestration of [src/index.js], embedded in Rocq.

    The program is one JavaScript module with three functions:
    [pictureCompress] (validation, image load, result), [compress] (canvas
    rendering and encoding) and [getDistSize] (target size computation).

    Modelling choices.
    - A JavaScript Number is [number]: NaN, the two infinities, or a finite
      value carried by an exact rational.  The rounding of binary64
      arithmetic, overflow of finite values and the sign of zero are
      abstracted; everything that the control flow of the program observes
      (NaN-propagation, comparisons with NaN being false, division by zero,
      truthiness) is kept.
    - A property that may be absent is a [value]: [undefined] or a number;
      string properties are [option string].
    - The platform (Image, canvas, 2D context) is not re-implemented: the
      calls the program makes on it are recorded, in order. *)

From Stdlib Require Import ZArith QArith Qround String Ascii List Bool Lia Lqa.
Import ListNotations.

Set Implicit Arguments.

Local Open Scope Q_scope.
Local Open Scope string_scope.
Local Open Scope list_scope.

(** ** JavaScript numbers *)

Inductive number : Type :=
| NaN
| NegInfinity
| Finite (q : Q)
| Infinity.

Inductive value : Type :=
| undefined
| Num (n : number).

Definition Qlt_bool (x y : Q) : bool := negb (Qle_bool y x).

Module Number.

(** [a < b] on Numbers: false as soon as one side is NaN. *)
Definition lt (a b : number) : bool :=
  match a, b with
  | NaN, _ | _, NaN => false
  | Finite x, Finite y => Qlt_bool x y
  | NegInfinity, NegInfinity => false
  | NegInfinity, _ => true
  | _, NegInfinity => false
  | Infinity, _ => false
  | Finite _, Infinity => true
  end.

(** [a <= b] is [!(b < a)], except that NaN makes it false. *)
Definition le (a b : number) : bool :=
  match a, b with
  | NaN, _ | _, NaN => false
  | _, _ => negb (lt b a)
  end.

(** [a === b] on Numbers. *)
Definition eqb (a b : number) : bool :=
  match a, b with
  | Finite x, Finite y => Qeq_bool x y
  | NegInfinity, NegInfinity => true
  | Infinity, Infinity => true
  | _, _ => false
  end.

Definition neg (a : number) : number :=
  match a with
  | NaN => NaN
  | NegInfinity => Infinity
  | Finite x => Finite (- x)
  | Infinity => NegInfinity
  end.

Definition add (a b : number) : number :=
  match a, b with
  | NaN, _ | _, NaN => NaN
  | Infinity, NegInfinity | NegInfinity, Infinity => NaN
  | Infinity, _ | _, Infinity => Infinity
  | NegInfinity, _ | _, NegInfinity => NegInfinity
  | Finite x, Finite y => Finite (x + y)
  end.

(** The infinity whose sign is the sign of [x] times the sign of [y];
    a zero counts as positive. *)
Definition signed_infinity (x_negative y_negative : bool) : number :=
  if xorb x_negative y_negative then NegInfinity else Infinity.

Definition is_negative (a : number) : bool := lt a (Finite 0).

Definition mul (a b : number) : number :=
  match a, b with
  | NaN, _ | _, NaN => NaN
  | Finite x, Finite y => Finite (x * y)
  | Finite x, _ =>
      if Qeq_bool x 0 then NaN
      else signed_infinity (is_negative a) (is_negative b)
  | _, Finite y =>
      if Qeq_bool y 0 then NaN
      else signed_infinity (is_negative a) (is_negative b)
  | _, _ => signed_infinity (is_negative a) (is_negative b)
  end.

Definition div (a b : number) : number :=
  match a, b with
  | NaN, _ | _, NaN => NaN
  | Finite x, Finite y =>
      if Qeq_bool y 0 then
        if Qeq_bool x 0 then NaN
        else signed_infinity (is_negative a) false
      else Finite (x / y)
  | Finite _, _ => Finite 0
  | _, Finite _ => signed_infinity (is_negative a) (is_negative b)
  | _, _ => NaN
  end.

(** The smaller of two Numbers, NaN if either is. *)
Definition min (a b : number) : number :=
  match a, b with
  | NaN, _ | _, NaN => NaN
  | _, _ => if lt b a then b else a
  end.

(** [Math.round]: the nearest integer, ties towards +Infinity. *)
Definition round (a : number) : number :=
  match a with
  | Finite x => Finite (inject_Z (Qfloor (x + (1 # 2))))
  | _ => a
  end.

End Number.

(** ** Conversions and operators on values *)

Definition ToNumber (v : value) : number :=
  match v with
  | undefined => NaN
  | Num n => n
  end.

Definition ToBoolean (v : value) : bool :=
  match v with
  | undefined => false
  | Num NaN => false
  | Num (Finite x) => negb (Qeq_bool x 0)
  | Num _ => true
  end.

(** [a === b] *)
Definition strict_eq (a b : value) : bool :=
  match a, b with
  | undefined, undefined => true
  | Num x, Num y => Number.eqb x y
  | _, _ => false
  end.

Definition js_lt (a b : value) : bool := Number.lt (ToNumber a) (ToNumber b).
Definition js_le (a b : value) : bool := Number.le (ToNumber a) (ToNumber b).
Definition js_add (a b : value) : value :=
  Num (Number.add (ToNumber a) (ToNumber b)).
Definition js_neg (a : value) : value := Num (Number.neg (ToNumber a)).
Definition js_mul (a b : value) : value :=
  Num (Number.mul (ToNumber a) (ToNumber b)).
Definition js_div (a b : value) : value :=
  Num (Number.div (ToNumber a) (ToNumber b)).

(** [a || b] on values. *)
Definition js_or (a b : value) : value := if ToBoolean a then a else b.

(** [a || b] where [a] is a string property that may be absent: the empty
    string is falsy like [undefined]. *)
Definition str_truthy (s : option string) : bool :=
  match s with
  | None => false
  | Some EmptyString => false
  | Some _ => true
  end.

Definition str_or (a : option string) (b : string) : string :=
  match a with
  | Some s => if str_truthy a then s else b
  | None => b
  end.

(** [Math.min(a, b, ...)]: Infinity for no argument. *)
Definition Math_min (args : list value) : value :=
  Num (fold_left (fun acc v => Number.min acc (ToNumber v)) args Infinity).

Definition Math_round (v : value) : value := Num (Number.round (ToNumber v)).

(** An integer literal. *)
Definition int (z : Z) : value := Num (Finite (inject_Z z)).

(** ** Sizes *)

Module Size.
Record t : Type := make { width : value; height : value }.
End Size.

(** ** getDistSize (src/index.js, lines 137-161) *)

Definition getDistSize (source dist : Size.t) (fit : string)
  (orientation : value) : Size.t :=
  (* lines 155-160, reached with the local [scale] assigned *)
  let finish (scale : value) : Size.t :=
    if String.eqb fit "fill" then dist
    else
      Size.make (Math_round (js_mul (Size.width source) scale))
                (Math_round (js_mul (Size.height source) scale)) in
  if strict_eq orientation (int 6) || strict_eq orientation (int 8) then
    if String.eqb fit "fill"
    then Size.make (Size.height dist) (Size.width dist)
    else
      finish
        (Math_min
           [ if ToBoolean (Size.width dist)
             then js_div (Size.width dist) (Size.height source) else int 1;
             if ToBoolean (Size.height dist)
             then js_div (Size.height dist) (Size.width source) else int 1;
             int 1 ])
  else
    finish
      (Math_min
         [ if ToBoolean (Size.width dist)
           then js_div (Size.width dist) (Size.width source) else int 1;
           if ToBoolean (Size.height dist)
           then js_div (Size.height dist) (Size.height source) else int 1;
           int 1 ]).

(** The value of the local [scale] when line 155 is reached. *)
Definition getDistSize_scale (source dist : Size.t) (orientation : value)
  : value :=
  if strict_eq orientation (int 6) || strict_eq orientation (int 8) then
    Math_min
      [ if ToBoolean (Size.width dist)
        then js_div (Size.width dist) (Size.height source) else int 1;
        if ToBoolean (Size.height dist)
        then js_div (Size.height dist) (Size.width source) else int 1;
        int 1 ]
  else
    Math_min
      [ if ToBoolean (Size.width dist)
        then js_div (Size.width dist) (Size.width source) else int 1;
        if ToBoolean (Size.height dist)
        then js_div (Size.height dist) (Size.height source) else int 1;
        int 1 ].

(** ** The platform objects the program drives *)

(** A decoded [Image]: [naturalWidth] and [naturalHeight] are unsigned
    integers on the platform. *)
Record image : Type := Image
  { src : string; naturalWidth : N; naturalHeight : N }.

(** An angle in radians, as a rational multiple of [Math.PI]. *)
Inductive radians : Type := PiTimes (q : Q).

(** The calls made on the canvas and on its 2D context, in order. *)
Inductive call : Type :=
| set_width (v : value)                          (* canvas.width = v *)
| set_height (v : value)                         (* canvas.height = v *)
| rotate (a : radians)                           (* ctx.rotate(a) *)
| drawImage (i : image) (dx dy dw dh : value).   (* ctx.drawImage(i, ...) *)

(** What [canvas.toDataURL(mime, quality)] was asked to encode: the platform
    decides the characters of the string from these three. *)
Record dataURL : Type := toDataURL
  { surface : list call; mime : option string; encoderOptions : value }.

(** ** compress (src/index.js, lines 89-128) *)

(** The object literal [types], read at a key. *)
Definition types (key : string) : option string :=
  if String.eqb key "jpg" then Some "image/jpeg"
  else if String.eqb key "jpeg" then Some "image/jpeg"
  else if String.eqb key "png" then Some "image/png"
  else None.

Definition compress (img : image) (width height : value) (type : string)
  (quality orientation : value) : dataURL :=
  let sized := [set_width width; set_height height] in
  let drawn :=
    if ToBoolean orientation && negb (strict_eq orientation (int 1)) then
      if strict_eq orientation (int 6) then
        sized ++ [ set_width height; set_height width;
                   rotate (PiTimes (1 / 2));
                   drawImage img (int 0) (js_neg height) width height ]
      else if strict_eq orientation (int 3) then
        sized ++ [ rotate (PiTimes 1);
                   drawImage img (js_neg width) (js_neg height) width height ]
      else if strict_eq orientation (int 8) then
        sized ++ [ set_width height; set_height width;
                   rotate (PiTimes (3 * 1 / 2));
                   drawImage img (js_neg width) (int 0) width height ]
      else sized
    else sized ++ [ drawImage img (int 0) (int 0) width height ]
  in
  toDataURL drawn (types type) quality.

(** ** pictureCompress (src/index.js, lines 15-78) *)

Module Options.
Record t : Type := make
  { img : option string;
    width : value;
    height : value;
    quality : value;
    fit : option string;
    type : option string }.
End Options.

Module Result.
Record t : Type := make { width : value; height : value; img : dataURL }.
End Result.

(** What the promise is rejected with: an [Error] made by the program, or
    the event the platform passed to [image.onerror]. *)
Inductive reason : Type :=
| Error (message : string)
| ErrorEvent (detail : string).

Inductive settlement : Type :=
| Resolve (r : Result.t)
| Reject (e : reason).

(** [/jpg|png|jpeg/.test(s)]: some alternative occurs somewhere in [s]. *)
Fixpoint includes (s pat : string) : bool :=
  String.prefix pat s
  || match s with
     | EmptyString => false
     | String _ rest => includes rest pat
     end.

Definition test_jpg_png_jpeg (s : string) : bool :=
  includes s "jpg" || includes s "png" || includes s "jpeg".

(** The variables of the executor that the [onload] handler closes over. *)
Record closure : Type := Closure
  { c_width : value; c_height : value; c_type : string;
    c_quality : value; c_fit : string }.

(** How the promise executor returns: having rejected, before line 37
    creates the [Image]; or with [image.src] assigned and the two handlers
    installed. *)
Inductive executor : Type :=
| Rejected (e : reason)
| Loading (imgSrc : string) (k : closure).

Definition pictureCompress (options : Options.t) : executor :=
  if negb (str_truthy (Options.img options)) then
    Rejected (Error "need img")
  else
    let imgSrc := str_or (Options.img options) "" in
    let width := Options.width options in
    let height := Options.height options in
    let type := str_or (Options.type options) "jpg" in
    let quality := js_or (Options.quality options) (Num (Finite 0.92)) in
    let fit := str_or (Options.fit options) "scale" in
    if js_lt width (int 0) || js_lt height (int 0)
       || js_le (js_add width height) (int 0)
    then Rejected (Error "dist width or height need >= 0")
    else if negb (test_jpg_png_jpeg type) then
      Rejected (Error "type need jpg or png!")
    else Loading imgSrc (Closure width height type quality fit).

(** [image.onload].  [exif] is what the callback given to [EXIF.getData]
    saw: [None] when the callback has not run by the time [getDistSize] is
    called, [Some tag] when it has, [tag] being the value of
    [EXIF.getTag(this, 'Orientation')]. *)
Definition onload (k : closure) (this : image) (exif : option value)
  : settlement :=
  let orientation :=
    match exif with
    | None => int 1
    | Some tag => js_or tag (int 1)
    end in
  let distSize :=
    getDistSize
      (Size.make (int (Z.of_N (naturalWidth this)))
                 (int (Z.of_N (naturalHeight this))))
      (Size.make (c_width k) (c_height k))
      (c_fit k)
      orientation in
  let imgData :=
    compress this (Size.width distSize) (Size.height distSize)
             (c_type k) (c_quality k) orientation in
  Resolve (Result.make (Size.width distSize) (Size.height distSize) imgData).

Definition onerror (err : string) : settlement := Reject (ErrorEvent err).

(** What the platform answers to the load it was asked for. *)
Inductive load : Type :=
| Loaded (this : image) (exif : option value)
| Failed (err : string).

(** The sources assigned to [image.src] by an invocation. *)
Definition decodes (x : executor) : list string :=
  match x with
  | Rejected _ => []
  | Loading imgSrc _ => [imgSrc]
  end.

(** How the promise settles, given the platform's answer. *)
Definition settle (options : Options.t) (answer : load) : settlement :=
  match pictureCompress options with
  | Rejected e => Reject e
  | Loading _ k =>
      match answer with
      | Loaded this exif => onload k this exif
      | Failed err => onerror err
      end
  end.

(** The errors of the specification's taxonomy. *)
Definition MissingInput : reason := Error "need img".
Definition InvalidDimensions : reason :=
  Error "dist width or height need >= 0".
Definition InvalidFormat : reason := Error "type need jpg or png!".

(** ** The specification's wording, for comparison with the code *)

(** The request's dimensions once "targetWidth and targetHeight default to 0
    when omitted". *)
Definition default_0 (v : value) : value :=
  match v with
  | undefined => int 0
  | Num _ => v
  end.

(** "targetWidth < 0 or targetHeight < 0 or targetWidth + targetHeight <= 0",
    read on the defaulted dimensions. *)
Definition spec_dimensions_violated (options : Options.t) : bool :=
  let w := default_0 (Options.width options) in
  let h := default_0 (Options.height options) in
  js_lt w (int 0) || js_lt h (int 0) || js_le (js_add w h) (int 0).

(** "format not one of {jpg, jpeg, png}". *)
Definition spec_format_recognized (s : string) : bool :=
  String.eqb s "jpg" || String.eqb s "jpeg" || String.eqb s "png".


(** The orientation codes of a 90-degree-class rotation. *)
Definition quarter_turn (orientation : value) : bool :=
  strict_eq orientation (int 6) || strict_eq orientation (int 8).



(** ** Predicates used in the statements *)


(** The value is the integer code [z]. *)
Definition is_code (v : value) (z : Z) : Prop :=
  exists q, v = Num (Finite q) /\ q == inject_Z z.

(** An integer that is at least 0. *)
Definition nonneg_integer (v : value) : Prop :=
  exists z : Z, (0 <= z)%Z /\ is_code v z.

(** A Number below zero. *)
Inductive negative : value -> Prop :=
| negative_finite q : q < 0 -> negative (Num (Finite q))
| negative_infinity : negative (Num NegInfinity).

(** Dimensions, as supplied, that are negative or jointly zero. *)
Inductive invalid_dimensions (w h : value) : Prop :=
| invalid_width : negative w -> invalid_dimensions w h
| invalid_height : negative h -> invalid_dimensions w h
| invalid_sum x y :
    w = Num (Finite x) -> h = Num (Finite y) -> x + y <= 0 ->
    invalid_dimensions w h.

(** [pat] occurs in [s]. *)
Definition occurs (pat s : string) : Prop :=
  exists before after, s = (before ++ pat ++ after)%string.

(** A Number that is +Infinity or a finite value at least 0. *)
Definition nonneg_ext (c : number) : Prop :=
  match c with
  | Infinity => True
  | Finite q => 0 <= q
  | _ => False
  end.

(** [s <= c], for [c] finite or +Infinity. *)
Definition below (s : Q) (c : number) : Prop :=
  match c with
  | Infinity => True
  | Finite q => s <= q
  | _ => False
  end.

(** [Math.round] on a finite value. *)
Definition round_Z (x : Q) : Z := Qfloor (x + (1 # 2)).

(** The value last assigned to [canvas.width] and to [canvas.height]. *)
Fixpoint surface_width (cs : list call) (current : value) : value :=
  match cs with
  | [] => current
  | set_width v :: rest => surface_width rest v
  | _ :: rest => surface_width rest current
  end.

Fixpoint surface_height (cs : list call) (current : value) : value :=
  match cs with
  | [] => current
  | set_height v :: rest => surface_height rest v
  | _ :: rest => surface_height rest current
  end.

(** The images drawn, in order: the image, the offset, the destination box. *)
Definition draws (cs : list call)
  : list (image * (value * value) * (value * value)) :=
  flat_map (fun c => match c with
                     | drawImage i dx dy dw dh => [(i, (dx, dy), (dw, dh))]
                     | _ => []
                     end) cs.

(** The request [o] with its quality replaced. *)
Definition with_quality (q : value) (o : Options.t) : Options.t :=
  Options.make (Options.img o) (Options.width o) (Options.height o) q
               (Options.fit o) (Options.type o).

(** ** Concrete inputs *)

Definition photo : image := Image "photo.jpg" 800 600.

Definition source_800x600 : Size.t := Size.make (int 800) (int 600).

(** [{img: 'photo.jpg'}] *)
Definition request_without_dimensions : Options.t :=
  Options.make (Some "photo.jpg") undefined undefined undefined None None.

(** [{img: '', width: -1, height: 10}] *)
Definition request_without_image_negative_width : Options.t :=
  Options.make (Some "") (int (-1)) (int 10) undefined None None.

(** [{img: 'photo.jpg', width: 0, height: 0}] *)
Definition request_zero_dimensions : Options.t :=
  Options.make (Some "photo.jpg") (int 0) (int 0) undefined None None.

(** [{img: '', width: 100, height: 50, quality: 0.5, fit: 'fill',
    type: 'png'}] *)
Definition request_without_image : Options.t :=
  Options.make (Some "") (int 100) (int 50) (Num (Finite 0.5)) (Some "fill")
               (Some "png").

(** [{img: '', width: 100, height: 0, type: 'gif'}] *)
Definition request_without_image_gif : Options.t :=
  Options.make (Some "") (int 100) (int 0) undefined None (Some "gif").

(** [{img: 'photo.jpg', width: 100, height: 0, type: ''}] *)
Definition request_empty_type : Options.t :=
  Options.make (Some "photo.jpg") (int 100) (int 0) undefined None (Some "").

(** [{img: 'photo.jpg', width: 100, height: 0, type: 'gif'}] *)
Definition request_gif : Options.t :=
  Options.make (Some "photo.jpg") (int 100) (int 0) undefined None
               (Some "gif").

(** [{img: 'photo.jpg', width: 100, height: 0, type: 'ajpg'}] *)
Definition request_ajpg : Options.t :=
  Options.make (Some "photo.jpg") (int 100) (int 0) undefined None
               (Some "ajpg").

(** [{img: 'photo.jpg', width: 400, height: 0, quality: 0.5}] *)
Definition request_half_quality : Options.t :=
  Options.make (Some "photo.jpg") (int 400) (int 0) (Num (Finite 0.5))
               None None.

(** [{img: 'photo.jpg', width: 1.5, height: 2, fit: 'fill'}] *)
Definition request_fractional_fill : Options.t :=
  Options.make (Some "photo.jpg") (Num (Finite 1.5)) (int 2) undefined
               (Some "fill") None.

(** [{img: 'photo.jpg', width: 300}] *)
Definition request_width_300 : Options.t :=
  Options.make (Some "photo.jpg") (int 300) undefined undefined None None.

(** ** Further vocabulary *)

(** The size with its two dimensions exchanged. *)
Definition transpose (s : Size.t) : Size.t :=
  Size.make (Size.height s) (Size.width s).

(** The value of the local [orientation] of [onload] when [getDistSize] is
    called (lines 41-45). *)
Definition exif_orientation (exif : option value) : value :=
  match exif with
  | None => int 1
  | Some tag => js_or tag (int 1)
  end.

(** A requested dimension that does not constrain a source dimension [z]:
    it is falsy, or at least [z]. *)
Inductive covers (z : Z) : value -> Prop :=
| covers_unconstrained v : ToBoolean v = false -> covers z v
| covers_finite d : inject_Z z <= d -> covers z (Num (Finite d))
| covers_infinite : covers z (Num Infinity).

(** The type in effect: [options.type || 'jpg']. *)
Definition effective_type (options : Options.t) : string :=
  str_or (Options.type options) "jpg".

(** [{img: 'photo.jpg', width: 1000, height: 0, fit: 'contain'}] *)
Definition request_larger_than_source : Options.t :=
  Options.make (Some "photo.jpg") (int 1000) (int 0) undefined
               (Some "contain") None.


(** [{img: 'photo.jpg', width: 300, height: 300, type: 'png'}] *)
Definition request_box_300 : Options.t :=
  Options.make (Some "photo.jpg") (int 300) (int 300) undefined None
               (Some "png").

(** [c <= c'] on Numbers that are finite or +Infinity. *)
Definition num_le (c c' : number) : Prop :=
  match c, c' with
  | Finite x, Finite y => x <= y
  | Finite _, Infinity => True
  | Infinity, Infinity => True
  | _, _ => False
  end.

(** A requested dimension [v'] that asks for at least as much as [v]: the
    same value, or a larger positive one. *)
Inductive at_least_as_large : value -> value -> Prop :=
| same_request v : at_least_as_large v v
| larger_request d d' :
    0 < d -> d <= d' -> at_least_as_large (Num (Finite d)) (Num (Finite d')).

(** * Properties *)

(** ** The number model *)

Lemma Qlt_bool_iff (x y : Q) : Qlt_bool x y = true <-> x < y.
Proof.
  unfold Qlt_bool. rewrite negb_true_iff.
  split; intro H.
  - apply Qnot_le_lt. intro Hle. apply Qle_bool_iff in Hle. congruence.
  - destruct (Qle_bool y x) eqn:E; [|reflexivity].
    apply Qle_bool_iff in E. exfalso. exact (Qlt_not_le _ _ H E).
Qed.

Lemma Qlt_bool_false_iff (x y : Q) : Qlt_bool x y = false <-> y <= x.
Proof.
  unfold Qlt_bool. rewrite negb_false_iff. apply Qle_bool_iff.
Qed.

(** Case split on a comparison of rationals left in the goal. *)
Ltac split_Qlt :=
  match goal with
  | |- context [Qlt_bool ?a ?b] =>
      let E := fresh "E" in
      destruct (Qlt_bool a b) eqn:E;
      [apply Qlt_bool_iff in E | apply Qlt_bool_false_iff in E];
      cbn [Number.min Number.lt]
  end.

Lemma strict_eq_int_spec (v : value) (z : Z) :
  strict_eq v (int z) = true <-> is_code v z.
Proof.
  unfold is_code. split.
  - destruct v as [|[| |q|]]; try discriminate.
    intro H. exists q. split; [reflexivity | apply Qeq_bool_eq; exact H].
  - intros [q [-> H]]. apply Qeq_eq_bool. exact H.
Qed.

Lemma strict_eq_int_false (v : value) (z : Z) :
  ~ is_code v z -> strict_eq v (int z) = false.
Proof.
  intro H. destruct (strict_eq v (int z)) eqn:E; [| reflexivity].
  exfalso. apply H. apply strict_eq_int_spec. exact E.
Qed.

Lemma quarter_turn_spec (o : value) :
  quarter_turn o = true <-> is_code o 6 \/ is_code o 8.
Proof.
  unfold quarter_turn.
  rewrite orb_true_iff, !strict_eq_int_spec. reflexivity.
Qed.

Lemma inject_Z_nonneg (z : Z) : (0 <= z)%Z -> 0 <= inject_Z z.
Proof. intro H. rewrite Zle_Qle in H. exact H. Qed.

Lemma round_Z_nonneg (x : Q) : 0 <= x -> (0 <= round_Z x)%Z.
Proof.
  intro H. unfold round_Z.
  change 0%Z with (Qfloor (inject_Z 0)).
  apply Qfloor_resp_le. change (inject_Z 0) with 0. lra.
Qed.



Lemma negative_lt_0 (v : value) : negative v -> js_lt v (int 0) = true.
Proof.
  intros [q Hq|]; [|reflexivity].
  apply Qlt_bool_iff. exact Hq.
Qed.

Lemma not_lt_0_not_negative (v : value) :
  js_lt v (int 0) = false -> ~ negative v.
Proof.
  intros H Hneg. rewrite (negative_lt_0 Hneg) in H. discriminate.
Qed.

Lemma not_negative_finite (d : Q) : ~ negative (Num (Finite d)) -> 0 <= d.
Proof.
  intro H. apply Qnot_lt_le. intro Hlt. apply H. constructor. exact Hlt.
Qed.

Lemma int_not_negative (z : Z) : (0 <= z)%Z -> ~ negative (int z).
Proof.
  intros Hz H. inversion H as [q Hq Heq|]; subst.
  apply inject_Z_nonneg in Hz. lra.
Qed.

Lemma int_nonneg_integer (z : Z) : (0 <= z)%Z -> nonneg_integer (int z).
Proof.
  intro Hz. exists z. split; [exact Hz |].
  exists (inject_Z z). split; reflexivity.
Qed.

(** ** The regular expression model *)

Lemma prefix_spec (p s : string) :
  String.prefix p s = true <-> exists after, s = (p ++ after)%string.
Proof.
  revert s. induction p as [|c p IH]; intros s; simpl.
  - split; [exists s; reflexivity | destruct s; reflexivity].
  - destruct s as [|d s]; simpl.
    + split; [discriminate | intros [a Ha]; discriminate].
    + destruct (Ascii.ascii_dec c d) as [->|Hcd].
      * rewrite IH. split; intros [a Ha]; exists a; congruence.
      * split; [discriminate | intros [a Ha]; congruence].
Qed.

Lemma includes_nil (pat : string) :
  includes "" pat = String.prefix pat "" || false.
Proof. reflexivity. Qed.

Lemma includes_cons (c : ascii) (s pat : string) :
  includes (String c s) pat
  = String.prefix pat (String c s) || includes s pat.
Proof. reflexivity. Qed.

Lemma includes_spec (s pat : string) :
  includes s pat = true <-> occurs pat s.
Proof.
  unfold occurs. split.
  - induction s as [|c s IH].
    + rewrite includes_nil, orb_true_iff.
      intros [H | H]; [|discriminate].
      apply prefix_spec in H. destruct H as [a Ha].
      exists EmptyString, a. exact Ha.
    + rewrite includes_cons, orb_true_iff.
      intros [H | H].
      * apply prefix_spec in H. destruct H as [a Ha].
        exists EmptyString, a. exact Ha.
      * destruct (IH H) as [b [a Hs]].
        exists (String c b), a. simpl. congruence.
  - intros [b [a Hs]]. revert s Hs.
    induction b as [|c b IH]; intros s Hs; subst s.
    + assert (H : String.prefix pat (pat ++ a) = true)
        by (apply prefix_spec; exists a; reflexivity).
      change ("" ++ pat ++ a)%string with (pat ++ a)%string.
      destruct (pat ++ a)%string.
      * rewrite includes_nil, H. reflexivity.
      * rewrite includes_cons, H. reflexivity.
    + change (String c b ++ pat ++ a)%string
        with (String c (b ++ pat ++ a))%string.
      rewrite includes_cons, (IH _ eq_refl). apply orb_true_r.
Qed.

Lemma not_occurs_includes (s pat : string) :
  ~ occurs pat s -> includes s pat = false.
Proof.
  intro H. destruct (includes s pat) eqn:E; [|reflexivity].
  exfalso. apply H. apply includes_spec. exact E.
Qed.

Lemma includes_false_not_occurs (s pat : string) :
  includes s pat = false -> ~ occurs pat s.
Proof.
  intros E H. apply includes_spec in H. congruence.
Qed.

(** ** Validation *)

Lemma invalid_dimensions_checked (w h : value) :
  invalid_dimensions w h ->
  js_lt w (int 0) || js_lt h (int 0) || js_le (js_add w h) (int 0) = true.
Proof.
  intros [H | H | x y -> -> H].
  - rewrite (negative_lt_0 H). reflexivity.
  - rewrite (negative_lt_0 H). rewrite orb_true_r. reflexivity.
  - apply orb_true_iff. right.
    unfold js_le, js_add, int. simpl.
    rewrite negb_true_iff. apply Qlt_bool_false_iff. exact H.
Qed.

(** A request rejected neither for its image nor for its dimensions, whose
    type fails the test, is rejected for its type. *)
Lemma type_checked_last (options : Options.t) :
  pictureCompress options <> Rejected MissingInput ->
  pictureCompress options <> Rejected InvalidDimensions ->
  test_jpg_png_jpeg (str_or (Options.type options) "jpg") = false ->
  pictureCompress options = Rejected InvalidFormat
  /\ decodes (pictureCompress options) = []
  /\ forall answer, settle options answer = Reject InvalidFormat.
Proof.
  unfold settle, pictureCompress.
  destruct (negb (str_truthy (Options.img options)));
    [intros H; exfalso; apply H; reflexivity |].
  destruct (js_lt (Options.width options) (int 0)
            || js_lt (Options.height options) (int 0)
            || js_le (js_add (Options.width options)
                             (Options.height options)) (int 0));
    [intros _ H; exfalso; apply H; reflexivity |].
  intros _ _ ->. simpl. auto.
Qed.

(** C8: a request whose [img] is absent or the empty string is rejected with
    MissingInput, whatever its other fields are, and no image load is
    started: the promise settles that way for every answer of the
    platform. *)
Theorem C8_missing_image_rejected (options : Options.t) :
  Options.img options = None \/ Options.img options = Some "" ->
  pictureCompress options = Rejected MissingInput
  /\ decodes (pictureCompress options) = []
  /\ forall answer, settle options answer = Reject MissingInput.
Proof.
  intro H. unfold settle, pictureCompress.
  destruct H as [-> | ->]; simpl; auto.
Qed.

Lemma C8_missing_image_rejected_witness :
  (Options.img request_without_image = None
   \/ Options.img request_without_image = Some "")
  /\ pictureCompress request_without_image = Rejected MissingInput
  /\ decodes (pictureCompress request_without_image) = []
  /\ forall answer, settle request_without_image answer = Reject MissingInput.
Proof.
  split; [right; reflexivity |].
  apply (@C8_missing_image_rejected request_without_image).
  right. reflexivity.
Defined.

(** C1, as stated, fails twice.  With both dimensions omitted the defaulted
    sum is 0, yet the request is not rejected: the code has no default for
    them, and [undefined + undefined <= 0] is false.  With the image source
    empty the rejection is MissingInput, whatever the dimensions. *)
Lemma C1_counterexample :
  (spec_dimensions_violated request_without_dimensions = true
   /\ pictureCompress request_without_dimensions
      = Loading "photo.jpg" (Closure undefined undefined "jpg"
                                     (Num (Finite 0.92)) "scale")
   /\ decodes (pictureCompress request_without_dimensions) = ["photo.jpg"])
  /\ (spec_dimensions_violated request_without_image_negative_width = true
      /\ pictureCompress request_without_image_negative_width
         = Rejected MissingInput
      /\ MissingInput <> InvalidDimensions).
Proof.
  repeat split; try reflexivity. discriminate.
Qed.

(** C1, amended: a request with a non-empty image source whose supplied
    dimensions are invalid (a supplied width below 0, or a supplied height
    below 0, or both supplied with sum at most 0) is rejected with
    InvalidDimensions before any image load is started.  An omitted
    dimension is not replaced by 0. *)
Theorem C1_invalid_dimensions_rejected (options : Options.t) :
  str_truthy (Options.img options) = true ->
  invalid_dimensions (Options.width options) (Options.height options) ->
  pictureCompress options = Rejected InvalidDimensions
  /\ decodes (pictureCompress options) = []
  /\ forall answer, settle options answer = Reject InvalidDimensions.
Proof.
  intros Himg Hdim. unfold settle, pictureCompress.
  rewrite Himg. cbn [negb].
  rewrite (invalid_dimensions_checked Hdim). auto.
Qed.

Lemma C1_invalid_dimensions_rejected_witness :
  str_truthy (Options.img request_zero_dimensions) = true
  /\ invalid_dimensions (Options.width request_zero_dimensions)
                        (Options.height request_zero_dimensions)
  /\ pictureCompress request_zero_dimensions = Rejected InvalidDimensions
  /\ decodes (pictureCompress request_zero_dimensions) = []
  /\ forall answer,
      settle request_zero_dimensions answer = Reject InvalidDimensions.
Proof.
  assert (Hdim : invalid_dimensions (Options.width request_zero_dimensions)
                                    (Options.height request_zero_dimensions)).
  { apply (@invalid_sum _ _ (inject_Z 0) (inject_Z 0)); try reflexivity.
    vm_compute. discriminate. }
  split; [reflexivity |]. split; [exact Hdim |].
  apply (@C1_invalid_dimensions_rejected request_zero_dimensions);
    [reflexivity | exact Hdim].
Defined.

(** The format check is a search, not a comparison: a type is accepted as
    soon as one of the three names occurs somewhere in it, and the renderer
    then finds no MIME type for it. *)
Example type_containing_jpg_is_accepted :
  pictureCompress request_ajpg
  = Loading "photo.jpg" (Closure (int 100) (int 0) "ajpg"
                                 (Num (Finite 0.92)) "scale")
  /\ types "ajpg" = None.
Proof. split; reflexivity. Qed.

(** C2, as stated, fails: an unrecognized format does not give InvalidFormat
    when an earlier check rejects first, and the empty string, which is not
    one of the three names, is replaced by the default and accepted. *)
Lemma C2_counterexample :
  (Options.type request_without_image_gif = Some "gif"
   /\ spec_format_recognized "gif" = false
   /\ pictureCompress request_without_image_gif = Rejected MissingInput
   /\ MissingInput <> InvalidFormat)
  /\ (Options.type request_empty_type = Some ""
      /\ spec_format_recognized "" = false
      /\ pictureCompress request_empty_type
         = Loading "photo.jpg" (Closure (int 100) (int 0) "jpg"
                                        (Num (Finite 0.92)) "scale")).
Proof.
  repeat split; try reflexivity. discriminate.
Qed.

(** C2, amended: a request that is rejected neither for its image source nor
    for its dimensions, and whose type (jpg when absent or empty) contains
    none of jpg, png, jpeg, is rejected with InvalidFormat before any image
    load is started; in particular every such request with type 'gif'. *)
Theorem C2_unrecognized_type_rejected :
  (forall options : Options.t,
      pictureCompress options <> Rejected MissingInput ->
      pictureCompress options <> Rejected InvalidDimensions ->
      ~ occurs "jpg" (str_or (Options.type options) "jpg") ->
      ~ occurs "png" (str_or (Options.type options) "jpg") ->
      ~ occurs "jpeg" (str_or (Options.type options) "jpg") ->
      pictureCompress options = Rejected InvalidFormat
      /\ decodes (pictureCompress options) = []
      /\ forall answer, settle options answer = Reject InvalidFormat)
  /\ (forall options : Options.t,
         pictureCompress options <> Rejected MissingInput ->
         pictureCompress options <> Rejected InvalidDimensions ->
         Options.type options = Some "gif" ->
         pictureCompress options = Rejected InvalidFormat
         /\ decodes (pictureCompress options) = []
         /\ forall answer, settle options answer = Reject InvalidFormat).
Proof.
  split.
  - intros options Himg Hdim Hjpg Hpng Hjpeg.
    apply type_checked_last; trivial. unfold test_jpg_png_jpeg.
    rewrite !not_occurs_includes by assumption. reflexivity.
  - intros options Himg Hdim Hgif.
    apply type_checked_last; trivial. rewrite Hgif. reflexivity.
Qed.

Lemma C2_unrecognized_type_rejected_witness :
  (pictureCompress request_gif <> Rejected MissingInput
   /\ pictureCompress request_gif <> Rejected InvalidDimensions
   /\ ~ occurs "jpg" (str_or (Options.type request_gif) "jpg")
   /\ ~ occurs "png" (str_or (Options.type request_gif) "jpg")
   /\ ~ occurs "jpeg" (str_or (Options.type request_gif) "jpg")
   /\ Options.type request_gif = Some "gif")
  /\ (pictureCompress request_gif = Rejected InvalidFormat
      /\ decodes (pictureCompress request_gif) = []
      /\ forall answer, settle request_gif answer = Reject InvalidFormat)
  /\ (pictureCompress request_gif = Rejected InvalidFormat
      /\ decodes (pictureCompress request_gif) = []
      /\ forall answer, settle request_gif answer = Reject InvalidFormat).
Proof.
  assert (H1 : pictureCompress request_gif <> Rejected MissingInput)
    by (vm_compute; discriminate).
  assert (H2 : pictureCompress request_gif <> Rejected InvalidDimensions)
    by (vm_compute; discriminate).
  assert (H3 : ~ occurs "jpg" (str_or (Options.type request_gif) "jpg"))
    by (apply includes_false_not_occurs; reflexivity).
  assert (H4 : ~ occurs "png" (str_or (Options.type request_gif) "jpg"))
    by (apply includes_false_not_occurs; reflexivity).
  assert (H5 : ~ occurs "jpeg" (str_or (Options.type request_gif) "jpg"))
    by (apply includes_false_not_occurs; reflexivity).
  split; [repeat (split; [assumption |]); reflexivity |].
  split.
  - exact (proj1 C2_unrecognized_type_rejected request_gif H1 H2 H3 H4 H5).
  - exact (proj2 C2_unrecognized_type_rejected request_gif H1 H2 eq_refl).
Defined.

(** C9: the quality is never checked.  A request that no check rejects is
    not rejected for any quality put in its place: the load is started with
    the same source, a falsy quality (absent, 0, NaN) having been replaced
    by 0.92 and any other kept; the promise is then rejected only with the
    platform's load error, and otherwise resolved with an image encoded at
    that quality. *)
Theorem C9_quality_never_validated
  (options : Options.t) (q : value) (answer : load) :
  (forall e, pictureCompress options <> Rejected e) ->
  let effective := if ToBoolean q then q else Num (Finite 0.92) in
  (exists imgSrc k,
      pictureCompress options = Loading imgSrc k
      /\ pictureCompress (with_quality q options)
         = Loading imgSrc (Closure (c_width k) (c_height k) (c_type k)
                                   effective (c_fit k)))
  /\ match settle (with_quality q options) answer with
     | Reject e => exists err, answer = Failed err /\ e = ErrorEvent err
     | Resolve r => encoderOptions (Result.img r) = effective
     end.
Proof.
  intros Hpass effective. unfold settle, pictureCompress, with_quality in *.
  cbn [Options.img Options.width Options.height Options.quality
       Options.fit Options.type] in *.
  destruct (negb (str_truthy (Options.img options)));
    [exfalso; exact (Hpass _ eq_refl) |].
  destruct (js_lt (Options.width options) (int 0)
            || js_lt (Options.height options) (int 0)
            || js_le (js_add (Options.width options)
                             (Options.height options)) (int 0));
    [exfalso; exact (Hpass _ eq_refl) |].
  destruct (negb (test_jpg_png_jpeg (str_or (Options.type options) "jpg")));
    [exfalso; exact (Hpass _ eq_refl) |].
  split.
  - eexists. eexists. split; reflexivity.
  - destruct answer as [this exif | err]; simpl.
    + reflexivity.
    + exists err. split; reflexivity.
Qed.

Lemma C9_quality_never_validated_witness :
  (forall e, pictureCompress request_half_quality <> Rejected e)
  /\ pictureCompress (with_quality (int 0) request_half_quality)
     = Loading "photo.jpg" (Closure (int 400) (int 0) "jpg"
                                    (Num (Finite 0.92)) "scale")
  /\ match settle (with_quality (int 0) request_half_quality)
                  (Loaded photo (Some (int 1))) with
     | Reject e =>
         exists err, Loaded photo (Some (int 1)) = Failed err
                     /\ e = ErrorEvent err
     | Resolve r => encoderOptions (Result.img r) = Num (Finite 0.92)
     end.
Proof.
  assert (Hpass : forall e, pictureCompress request_half_quality <> Rejected e)
    by (intro e; vm_compute; discriminate).
  split; [exact Hpass |].
  destruct (@C9_quality_never_validated request_half_quality (int 0)
              (Loaded photo (Some (int 1))) Hpass)
    as [[imgSrc [k [Hk Hq]]] Hsettle].
  split; [| exact Hsettle].
  vm_compute in Hk. injection Hk as <- <-. exact Hq.
Defined.

(** ** The geometry resolver: equations *)

Lemma getDistSize_fill (source dist : Size.t) (orientation : value) :
  getDistSize source dist "fill" orientation
  = if quarter_turn orientation
    then Size.make (Size.height dist) (Size.width dist)
    else dist.
Proof.
  unfold getDistSize, quarter_turn.
  destruct (strict_eq orientation (int 6) || strict_eq orientation (int 8));
    reflexivity.
Qed.

Lemma getDistSize_not_fill (source dist : Size.t) (fit : string)
  (orientation : value) :
  fit <> "fill" ->
  getDistSize source dist fit orientation
  = Size.make
      (Math_round (js_mul (Size.width source)
                          (getDistSize_scale source dist orientation)))
      (Math_round (js_mul (Size.height source)
                          (getDistSize_scale source dist orientation))).
Proof.
  intro Hfit. apply String.eqb_neq in Hfit.
  unfold getDistSize, getDistSize_scale. rewrite Hfit.
  destruct (strict_eq orientation (int 6) || strict_eq orientation (int 8));
    reflexivity.
Qed.




(** C4: in fill mode the resolver returns the requested dimensions, with
    width and height exchanged exactly when the orientation is 6 or 8. *)
Theorem C4_fill_mode_returns_request
  (source dist : Size.t) (orientation : value) :
  (is_code orientation 6 \/ is_code orientation 8 ->
   getDistSize source dist "fill" orientation
   = Size.make (Size.height dist) (Size.width dist))
  /\ (~ (is_code orientation 6 \/ is_code orientation 8) ->
      getDistSize source dist "fill" orientation = dist).
Proof.
  rewrite getDistSize_fill. split; intro H.
  - apply quarter_turn_spec in H. rewrite H. reflexivity.
  - destruct (quarter_turn orientation) eqn:E; [| reflexivity].
    exfalso. apply H. apply quarter_turn_spec. exact E.
Qed.

Lemma C4_fill_mode_returns_request_witness :
  ((is_code (int 6) 6 \/ is_code (int 6) 8)
   /\ getDistSize source_800x600 (Size.make (int 200) (int 100)) "fill"
                  (int 6)
      = Size.make (int 100) (int 200))
  /\ (~ (is_code (int 3) 6 \/ is_code (int 3) 8)
      /\ getDistSize source_800x600 (Size.make (int 200) (int 100)) "fill"
                     (int 3)
         = Size.make (int 200) (int 100)).
Proof.
  assert (H6 : is_code (int 6) 6 \/ is_code (int 6) 8)
    by (left; eexists; split; reflexivity).
  assert (H3 : ~ (is_code (int 3) 6 \/ is_code (int 3) 8)).
  { intro H. apply quarter_turn_spec in H. vm_compute in H. discriminate. }
  split.
  - split; [exact H6 |].
    exact (proj1 (C4_fill_mode_returns_request source_800x600
                    (Size.make (int 200) (int 100)) (int 6)) H6).
  - split; [exact H3 |].
    exact (proj2 (C4_fill_mode_returns_request source_800x600
                    (Size.make (int 200) (int 100)) (int 3)) H3).
Defined.

(** C10: every fit other than the string 'fill' is scale mode: the resolver
    returns what it returns for 'scale', the rounded source dimensions
    scaled by the minimum of the candidates. *)
Theorem C10_any_other_fit_is_scale
  (source dist : Size.t) (fit : string) (orientation : value) :
  fit <> "fill" ->
  getDistSize source dist fit orientation
  = getDistSize source dist "scale" orientation
  /\ getDistSize source dist fit orientation
     = let scale := getDistSize_scale source dist orientation in
       Size.make (Math_round (js_mul (Size.width source) scale))
                 (Math_round (js_mul (Size.height source) scale)).
Proof.
  intro Hfit.
  rewrite (getDistSize_not_fill source dist orientation Hfit).
  rewrite getDistSize_not_fill by discriminate.
  split; reflexivity.
Qed.

Lemma C10_any_other_fit_is_scale_witness :
  "cover" <> "fill"
  /\ getDistSize source_800x600 (Size.make (int 400) (int 0)) "cover" (int 1)
     = getDistSize source_800x600 (Size.make (int 400) (int 0)) "scale"
                   (int 1)
  /\ getDistSize source_800x600 (Size.make (int 400) (int 0)) "cover" (int 1)
     = Size.make (int 400) (int 300).
Proof.
  assert (Hfit : "cover" <> "fill") by discriminate.
  split; [exact Hfit |].
  destruct (@C10_any_other_fit_is_scale source_800x600
              (Size.make (int 400) (int 0)) "cover" (int 1) Hfit)
    as [H1 H2].
  split; [exact H1 | exact H2].
Defined.

(** ** The geometry resolver: bounds *)

Lemma min3_bounds (v1 v2 : value) :
  nonneg_ext (ToNumber v1) -> nonneg_ext (ToNumber v2) ->
  exists s : Q,
    Math_min [v1; v2; int 1] = Num (Finite s)
    /\ 0 <= s /\ s <= 1
    /\ below s (ToNumber v1) /\ below s (ToNumber v2).
Proof.
  unfold Math_min. cbn [fold_left ToNumber int].
  change (inject_Z 1) with 1%Q.
  destruct (ToNumber v1) as [| |c1|]; try contradiction;
    destruct (ToNumber v2) as [| |c2|]; try contradiction;
    cbn [nonneg_ext below Number.min Number.lt]; intros H1 H2;
    repeat split_Qlt;
    eexists; (split; [reflexivity |]); repeat split; trivial; lra.
Qed.

(** The candidate computed for a requested dimension [dv] compared against
    the source dimension [against]. *)
Lemma candidate_bound (against : Q) (dv : value) :
  0 <= against -> ~ negative dv ->
  let c := ToNumber (if ToBoolean dv
                     then js_div dv (Num (Finite against)) else int 1) in
  nonneg_ext c
  /\ forall s d, below s c -> 0 <= s ->
                 dv = Num (Finite d) -> 0 < d -> against * s <= d.
Proof.
  intros Ha Hd.
  destruct dv as [|[| |d|]]; cbn [ToBoolean].
  - split; [vm_compute; discriminate | discriminate].
  - split; [vm_compute; discriminate | discriminate].
  - exfalso. apply Hd. constructor.
  - apply not_negative_finite in Hd.
    destruct (Qeq_bool d 0) eqn:Ed; cbn [negb].
    + apply Qeq_bool_eq in Ed.
      split; [vm_compute; discriminate |].
      intros s d' _ _ [= <-] Hpos. lra.
    + assert (Hd0 := Qeq_bool_neq _ _ Ed).
      unfold js_div. cbn [ToNumber Number.div].
      destruct (Qeq_bool against 0) eqn:Ea.
      * apply Qeq_bool_eq in Ea. rewrite Ed.
        unfold Number.is_negative. cbn [Number.lt].
        assert (Hn : Qlt_bool d 0 = false) by (apply Qlt_bool_false_iff; lra).
        rewrite Hn. cbn [Number.signed_infinity xorb nonneg_ext below].
        split; [exact I |].
        intros s d' _ Hs [= <-] Hpos. rewrite Ea. lra.
      * apply Qeq_bool_neq in Ea. cbn [nonneg_ext below].
        assert (Hpos : 0 < against).
        { apply Qle_lteq in Ha. destruct Ha as [Ha | Ha]; [exact Ha |].
          exfalso. apply Ea. symmetry. exact Ha. }
        split.
        -- apply Qle_shift_div_l; [exact Hpos | lra].
        -- intros s d' Hs _ [= <-] _.
           apply (Qmult_le_compat_r _ _ against) in Hs; [| exact Ha].
           assert (Hd' : d / against * against == d) by (field; exact Ea).
           rewrite Hd' in Hs. rewrite Qmult_comm. exact Hs.
  - unfold js_div. cbn [ToNumber Number.div].
    unfold Number.is_negative. cbn [Number.lt].
    assert (Hn : Qlt_bool against 0 = false)
      by (apply Qlt_bool_false_iff; exact Ha).
    rewrite Hn. split; [exact I | discriminate].
Qed.

(** The scale factor for a source with non-negative dimensions and requested
    dimensions none of which is negative: a finite number between 0 and 1
    that brings the source inside the request, on each constrained axis;
    the axes of the request are exchanged for the orientations 6 and 8. *)
Lemma scale_factor_bounds (sw sh : Q) (dist : Size.t) (orientation : value) :
  0 <= sw -> 0 <= sh ->
  ~ negative (Size.width dist) -> ~ negative (Size.height dist) ->
  exists s : Q,
    getDistSize_scale (Size.make (Num (Finite sw)) (Num (Finite sh))) dist
                      orientation
    = Num (Finite s)
    /\ 0 <= s /\ s <= 1
    /\ (forall d, Size.width dist = Num (Finite d) -> 0 < d ->
                  (if quarter_turn orientation then sh else sw) * s <= d)
    /\ (forall d, Size.height dist = Num (Finite d) -> 0 < d ->
                  (if quarter_turn orientation then sw else sh) * s <= d).
Proof.
  intros Hsw Hsh Hdw Hdh.
  unfold getDistSize_scale. fold (quarter_turn orientation).
  cbn [Size.width Size.height].
  destruct (quarter_turn orientation).
  - destruct (candidate_bound Hsh Hdw) as [N1 B1].
    destruct (candidate_bound Hsw Hdh) as [N2 B2].
    destruct (min3_bounds _ _ N1 N2) as [s [Hs [H0 [H1 [L1 L2]]]]].
    exists s. split; [exact Hs |]. repeat split; trivial.
    + intros d. apply B1; assumption.
    + intros d. apply B2; assumption.
  - destruct (candidate_bound Hsw Hdw) as [N1 B1].
    destruct (candidate_bound Hsh Hdh) as [N2 B2].
    destruct (min3_bounds _ _ N1 N2) as [s [Hs [H0 [H1 [L1 L2]]]]].
    exists s. split; [exact Hs |]. repeat split; trivial.
    + intros d. apply B1; assumption.
    + intros d. apply B2; assumption.
Qed.

Lemma scale_mode_result (sw sh s : Q) (dist : Size.t) (fit : string)
  (orientation : value) :
  fit <> "fill" ->
  getDistSize_scale (Size.make (Num (Finite sw)) (Num (Finite sh))) dist
                    orientation = Num (Finite s) ->
  getDistSize (Size.make (Num (Finite sw)) (Num (Finite sh))) dist fit
              orientation
  = Size.make (int (round_Z (sw * s))) (int (round_Z (sh * s))).
Proof.
  intros Hfit Hs.
  rewrite getDistSize_not_fill by exact Hfit. rewrite Hs. reflexivity.
Qed.

(** In scale mode, with a source of non-negative dimensions and a request
    without a negative dimension, the target dimensions are integers at
    least 0. *)
Lemma scale_mode_nonneg_integers
  (sw sh : Q) (dist : Size.t) (fit : string) (orientation : value) :
  0 <= sw -> 0 <= sh -> fit <> "fill" ->
  ~ negative (Size.width dist) -> ~ negative (Size.height dist) ->
  exists w h : Z,
    getDistSize (Size.make (Num (Finite sw)) (Num (Finite sh))) dist fit
                orientation
    = Size.make (int w) (int h)
    /\ (0 <= w)%Z /\ (0 <= h)%Z.
Proof.
  intros Hsw Hsh Hfit Hdw Hdh.
  destruct (@scale_factor_bounds sw sh dist orientation Hsw Hsh Hdw Hdh)
    as [s [Hs [H0 _]]].
  exists (round_Z (sw * s)), (round_Z (sh * s)).
  split; [apply scale_mode_result; assumption |].
  split; apply round_Z_nonneg, Qmult_le_0_compat; assumption.
Qed.




(** C7, as stated, fails in fill mode: the requested dimensions are returned
    as they are, so the request {width: 1.5, height: 2, fit: 'fill'}, which
    passes validation, is resolved with width 1.5. *)
Lemma C7_counterexample :
  getDistSize source_800x600 (Size.make (Num (Finite 1.5)) (int 2)) "fill"
              (int 1)
  = Size.make (Num (Finite 1.5)) (int 2)
  /\ ~ nonneg_integer (Num (Finite 1.5))
  /\ exists r,
      settle request_fractional_fill (Loaded photo (Some (int 1)))
      = Resolve r
      /\ Result.width r = Num (Finite 1.5).
Proof.
  split; [reflexivity |]. split.
  - intros [z [_ [q [Heq Hq]]]]. injection Heq as <-.
    unfold Qeq in Hq. simpl in Hq. lia.
  - eexists. split; reflexivity.
Qed.

(** C7, amended: in scale mode (every fit other than 'fill'), for a source
    with non-negative dimensions and requested dimensions none of which is
    negative, the target dimensions are integers at least 0; in fill mode
    the target dimensions are the requested ones, so they are integers at
    least 0 exactly when the requested ones are.  A request resolved in
    scale mode therefore always carries integers at least 0. *)
Theorem C7_target_dimensions :
  (forall (sw sh : Q) (dist : Size.t) (fit : string) (orientation : value),
      0 <= sw -> 0 <= sh -> fit <> "fill" ->
      ~ negative (Size.width dist) -> ~ negative (Size.height dist) ->
      exists w h : Z,
        getDistSize (Size.make (Num (Finite sw)) (Num (Finite sh))) dist fit
                    orientation
        = Size.make (int w) (int h)
        /\ (0 <= w)%Z /\ (0 <= h)%Z)
  /\ (forall (source dist : Size.t) (orientation : value),
         nonneg_integer
           (Size.width (getDistSize source dist "fill" orientation))
         /\ nonneg_integer
              (Size.height (getDistSize source dist "fill" orientation))
         <-> nonneg_integer (Size.width dist)
             /\ nonneg_integer (Size.height dist))
  /\ (forall (options : Options.t) (this : image) (exif : option value)
             (r : Result.t),
         str_or (Options.fit options) "scale" <> "fill" ->
         settle options (Loaded this exif) = Resolve r ->
         nonneg_integer (Result.width r) /\ nonneg_integer (Result.height r)).
Proof.
  split; [exact scale_mode_nonneg_integers |]. split.
  - intros source dist orientation.
    rewrite getDistSize_fill.
    destruct (quarter_turn orientation); cbn [Size.width Size.height];
      tauto.
  - intros options this exif r Hfit.
    unfold settle, pictureCompress.
    destruct (negb (str_truthy (Options.img options))); [discriminate |].
    destruct (js_lt (Options.width options) (int 0)) eqn:Ew;
      [discriminate |].
    destruct (js_lt (Options.height options) (int 0)) eqn:Eh;
      [discriminate |].
    cbn [orb].
    destruct (js_le (js_add (Options.width options) (Options.height options))
                    (int 0)); [discriminate |].
    destruct (negb (test_jpg_png_jpeg (str_or (Options.type options) "jpg")));
      [discriminate |].
    unfold onload. cbn [c_width c_height c_fit c_type c_quality].
    intros [= <-]. cbn [Result.width Result.height].
    destruct (@scale_mode_nonneg_integers
                (inject_Z (Z.of_N (naturalWidth this)))
                (inject_Z (Z.of_N (naturalHeight this)))
                (Size.make (Options.width options) (Options.height options))
                (str_or (Options.fit options) "scale")
                match exif with
                | Some tag => js_or tag (int 1)
                | None => int 1
                end)
      as [w [h [Hr [Hw Hh]]]].
    + apply inject_Z_nonneg. lia.
    + apply inject_Z_nonneg. lia.
    + exact Hfit.
    + apply not_lt_0_not_negative. exact Ew.
    + apply not_lt_0_not_negative. exact Eh.
    + match goal with
      | |- nonneg_integer (Size.width ?t) /\ _ =>
          replace t with (Size.make (int w) (int h)) by (symmetry; exact Hr)
      end.
      cbn [Size.width Size.height].
      split; apply int_nonneg_integer; assumption.
Qed.

Lemma C7_target_dimensions_witness :
  (0 <= 800 /\ 0 <= 600 /\ "scale" <> "fill"
   /\ ~ negative (int 300) /\ ~ negative undefined
   /\ exists w h : Z,
       getDistSize (Size.make (Num (Finite 800)) (Num (Finite 600)))
                   (Size.make (int 300) undefined) "scale" (int 6)
       = Size.make (int w) (int h)
       /\ (0 <= w)%Z /\ (0 <= h)%Z)
  /\ (str_or (Options.fit request_width_300) "scale" <> "fill"
      /\ exists r,
          settle request_width_300 (Loaded photo (Some (int 6))) = Resolve r
          /\ Result.width r = int 400 /\ Result.height r = int 300
          /\ nonneg_integer (Result.width r)
          /\ nonneg_integer (Result.height r)).
Proof.
  assert (H1 : 0 <= 800) by (vm_compute; discriminate).
  assert (H2 : 0 <= 600) by (vm_compute; discriminate).
  assert (H3 : "scale" <> "fill") by discriminate.
  assert (H4 : ~ negative (int 300)) by (apply int_not_negative; lia).
  assert (H5 : ~ negative undefined) by (intro H; inversion H).
  assert (Hfit : str_or (Options.fit request_width_300) "scale" <> "fill")
    by discriminate.
  split.
  - repeat (split; [assumption |]).
    exact (proj1 C7_target_dimensions 800 600
                 (Size.make (int 300) undefined) "scale" (int 6)
                 H1 H2 H3 H4 H5).
  - split; [exact Hfit |].
    eexists. split; [reflexivity |]. split; [reflexivity |].
    split; [reflexivity |].
    exact (proj2 (proj2 C7_target_dimensions) request_width_300 photo
                 (Some (int 6)) _ Hfit eq_refl).
Defined.

(** ** The renderer *)

(** For the orientations 6, 3, 8 and 1 the renderer makes the prescribed
    calls: the surface is sized, resized when the rotation is a quarter
    turn, rotated, and the image is drawn at the prescribed offset. *)
Lemma compress_orientation_6 img width height type quality :
  compress img width height type quality (int 6)
  = toDataURL [ set_width width; set_height height;
                set_width height; set_height width;
                rotate (PiTimes (1 / 2));
                drawImage img (int 0) (js_neg height) width height ]
              (types type) quality.
Proof. reflexivity. Qed.

Lemma compress_orientation_3 img width height type quality :
  compress img width height type quality (int 3)
  = toDataURL [ set_width width; set_height height;
                rotate (PiTimes 1);
                drawImage img (js_neg width) (js_neg height) width height ]
              (types type) quality.
Proof. reflexivity. Qed.

Lemma compress_orientation_8 img width height type quality :
  compress img width height type quality (int 8)
  = toDataURL [ set_width width; set_height height;
                set_width height; set_height width;
                rotate (PiTimes (3 * 1 / 2));
                drawImage img (js_neg width) (int 0) width height ]
              (types type) quality.
Proof. reflexivity. Qed.

Lemma compress_orientation_1 img width height type quality :
  compress img width height type quality (int 1)
  = toDataURL [ set_width width; set_height height;
                drawImage img (int 0) (int 0) width height ]
              (types type) quality.
Proof. reflexivity. Qed.

Lemma compress_quarter_turn_surface img width height type quality code :
  code = 6%Z \/ code = 8%Z ->
  surface_width (surface (compress img width height type quality (int code)))
                undefined = height
  /\ surface_height
       (surface (compress img width height type quality (int code)))
       undefined = width.
Proof. intros [-> | ->]; split; reflexivity. Qed.

(** A falsy orientation (absent, 0, NaN) is drawn like orientation 1. *)
Lemma compress_falsy_orientation img width height type quality orientation :
  ToBoolean orientation = false ->
  compress img width height type quality orientation
  = compress img width height type quality (int 1).
Proof. intro H. unfold compress. rewrite H. reflexivity. Qed.

(** C6 holds for the orientations 1, 3, 6 and 8 but not for the others: for
    an orientation that is truthy and none of 1, 3, 6, 8 (the EXIF codes 2,
    4, 5 and 7 among them) the renderer sizes the surface and encodes it
    without having drawn the image. *)
Theorem C6_unrecognized_orientation_draws_nothing
  (img : image) (width height : value) (type : string)
  (quality orientation : value) :
  ToBoolean orientation = true ->
  ~ is_code orientation 1 -> ~ is_code orientation 3 ->
  ~ is_code orientation 6 -> ~ is_code orientation 8 ->
  compress img width height type quality orientation
  = toDataURL [set_width width; set_height height] (types type) quality
  /\ draws (surface (compress img width height type quality orientation))
     = [].
Proof.
  intros Ht H1 H3 H6 H8. unfold compress.
  rewrite Ht, !strict_eq_int_false by assumption.
  split; reflexivity.
Qed.

Lemma C6_unrecognized_orientation_draws_nothing_witness :
  ToBoolean (int 2) = true
  /\ ~ is_code (int 2) 1 /\ ~ is_code (int 2) 3
  /\ ~ is_code (int 2) 6 /\ ~ is_code (int 2) 8
  /\ compress photo (int 400) (int 300) "jpg" (Num (Finite 0.92)) (int 2)
     = toDataURL [set_width (int 400); set_height (int 300)]
                 (Some "image/jpeg") (Num (Finite 0.92))
  /\ draws (surface (compress photo (int 400) (int 300) "jpg"
                              (Num (Finite 0.92)) (int 2))) = [].
Proof.
  assert (Ht : ToBoolean (int 2) = true) by reflexivity.
  assert (Hn : forall z, strict_eq (int 2) (int z) = false ->
                         ~ is_code (int 2) z).
  { intros z E H. apply strict_eq_int_spec in H. congruence. }
  assert (H1 := Hn 1%Z eq_refl). assert (H3 := Hn 3%Z eq_refl).
  assert (H6 := Hn 6%Z eq_refl). assert (H8 := Hn 8%Z eq_refl).
  repeat (split; [assumption |]).
  exact (@C6_unrecognized_orientation_draws_nothing photo (int 400) (int 300)
           "jpg" (Num (Finite 0.92)) (int 2) Ht H1 H3 H6 H8).
Defined.

(** * Further properties of the code *)

(** ** Validation, characterised *)

Lemma lt_0_negative (v : value) : js_lt v (int 0) = true -> negative v.
Proof.
  destruct v as [|[| |q|]]; try discriminate.
  - intros _. constructor.
  - intro H. constructor. apply Qlt_bool_iff. exact H.
Qed.

Lemma dimensions_check_spec (w h : value) :
  js_lt w (int 0) || js_lt h (int 0) || js_le (js_add w h) (int 0) = true
  <-> invalid_dimensions w h.
Proof.
  split; [| apply invalid_dimensions_checked].
  rewrite !orb_true_iff. intros [[H | H] | H].
  - apply invalid_width, lt_0_negative, H.
  - apply invalid_height, lt_0_negative, H.
  - destruct w as [|[| |x|]]; destruct h as [|[| |y|]]; try discriminate;
      try (apply invalid_width; constructor; fail);
      try (apply invalid_height; constructor; fail).
    apply (@invalid_sum _ _ x y); try reflexivity.
    unfold js_le, js_add, int in H. simpl in H.
    rewrite negb_true_iff in H. apply Qlt_bool_false_iff in H. exact H.
Qed.

Lemma dimensions_check_false (w h : value) :
  js_lt w (int 0) || js_lt h (int 0) || js_le (js_add w h) (int 0) = false
  <-> ~ invalid_dimensions w h.
Proof.
  rewrite <- dimensions_check_spec.
  destruct (js_lt w (int 0) || js_lt h (int 0)
            || js_le (js_add w h) (int 0)); split; congruence.
Qed.

Lemma type_test_spec (t : string) :
  test_jpg_png_jpeg t = true
  <-> occurs "jpg" t \/ occurs "png" t \/ occurs "jpeg" t.
Proof.
  unfold test_jpg_png_jpeg.
  rewrite !orb_true_iff, !includes_spec. tauto.
Qed.

Lemma type_test_false (t : string) :
  test_jpg_png_jpeg t = false
  <-> ~ occurs "jpg" t /\ ~ occurs "png" t /\ ~ occurs "jpeg" t.
Proof.
  assert (H := type_test_spec t).
  destruct (test_jpg_png_jpeg t); split; intro G.
  - discriminate.
  - exfalso. assert (E : true = true) by reflexivity.
    apply H in E. tauto.
  - repeat split; intro O; assert (E : false = true) by (apply H; tauto);
      discriminate.
  - reflexivity.
Qed.

Lemma str_truthy_spec (s : option string) :
  str_truthy s = true <-> exists t, s = Some t /\ t <> "".
Proof.
  destruct s as [[|c t]|]; simpl; split;
    try discriminate; try reflexivity.
  - intros [t [[= <-] Ht]]. congruence.
  - intros _. eexists. split; [reflexivity | discriminate].
  - intros [t [Ht _]]. discriminate.
Qed.

(** X1: the dimension error is raised exactly when the image source is
    non-empty and a supplied dimension is below 0 or both are supplied with
    sum at most 0. *)
Theorem X1_invalid_dimensions_exactly (options : Options.t) :
  pictureCompress options = Rejected InvalidDimensions
  <-> str_truthy (Options.img options) = true
      /\ invalid_dimensions (Options.width options) (Options.height options).
Proof.
  unfold pictureCompress.
  destruct (str_truthy (Options.img options)); cbn [negb].
  - destruct (js_lt (Options.width options) (int 0)
              || js_lt (Options.height options) (int 0)
              || js_le (js_add (Options.width options)
                               (Options.height options)) (int 0)) eqn:E.
    + apply dimensions_check_spec in E. tauto.
    + apply dimensions_check_false in E.
      destruct (negb (test_jpg_png_jpeg
                        (str_or (Options.type options) "jpg")));
        split; try discriminate; tauto.
  - split; [discriminate | intros [H _]; discriminate].
Qed.

(** X2: the format error is raised exactly when the image source is
    non-empty, the dimensions are not invalid, and none of jpg, png, jpeg
    occurs in the type in effect. *)
Theorem X2_invalid_format_exactly (options : Options.t) :
  pictureCompress options = Rejected InvalidFormat
  <-> str_truthy (Options.img options) = true
      /\ ~ invalid_dimensions (Options.width options)
                              (Options.height options)
      /\ ~ occurs "jpg" (effective_type options)
      /\ ~ occurs "png" (effective_type options)
      /\ ~ occurs "jpeg" (effective_type options).
Proof.
  unfold pictureCompress, effective_type.
  destruct (str_truthy (Options.img options)); cbn [negb].
  - destruct (js_lt (Options.width options) (int 0)
              || js_lt (Options.height options) (int 0)
              || js_le (js_add (Options.width options)
                               (Options.height options)) (int 0)) eqn:E.
    + apply dimensions_check_spec in E.
      split; [discriminate | tauto].
    + apply dimensions_check_false in E.
      destruct (test_jpg_png_jpeg (str_or (Options.type options) "jpg"))
        eqn:T; cbn [negb].
      * apply type_test_spec in T. split; [discriminate | tauto].
      * apply type_test_false in T. tauto.
  - split; [discriminate | intros [H _]; discriminate].
Qed.

(** X3: an image load is started exactly when the image source is a
    non-empty string, the dimensions are not invalid and one of jpg, png,
    jpeg occurs in the type in effect; the source given to the image is then
    the request's, unchanged, and the handler works with the request's
    dimensions and the defaults jpg, 0.92 and scale. *)
Theorem X3_load_started_exactly (options : Options.t) (imgSrc : string)
  (k : closure) :
  pictureCompress options = Loading imgSrc k
  <-> Options.img options = Some imgSrc /\ imgSrc <> ""
      /\ ~ invalid_dimensions (Options.width options)
                              (Options.height options)
      /\ (occurs "jpg" (effective_type options)
          \/ occurs "png" (effective_type options)
          \/ occurs "jpeg" (effective_type options))
      /\ k = Closure (Options.width options) (Options.height options)
                     (effective_type options)
                     (js_or (Options.quality options) (Num (Finite 0.92)))
                     (str_or (Options.fit options) "scale").
Proof.
  unfold pictureCompress, effective_type.
  destruct (Options.img options) as [[|c s]|]; cbn [str_truthy negb str_or].
  - split; [discriminate | intros [[= <-] [H _]]; congruence].
  - destruct (js_lt (Options.width options) (int 0)
              || js_lt (Options.height options) (int 0)
              || js_le (js_add (Options.width options)
                               (Options.height options)) (int 0)) eqn:E.
    + apply dimensions_check_spec in E.
      split; [discriminate | tauto].
    + apply dimensions_check_false in E.
      destruct (test_jpg_png_jpeg (str_or (Options.type options) "jpg"))
        eqn:T; cbn [negb].
      * apply type_test_spec in T. split.
        -- intros [= <- <-]. repeat split; trivial. discriminate.
        -- intros [[= <-] [_ [_ [_ ->]]]]. reflexivity.
      * apply type_test_false in T. split; [discriminate | tauto].
  - split; [discriminate | intros [H _]; discriminate].
Qed.

Lemma X1_invalid_dimensions_exactly_witness :
  pictureCompress request_zero_dimensions = Rejected InvalidDimensions
  /\ str_truthy (Options.img request_zero_dimensions) = true
  /\ invalid_dimensions (Options.width request_zero_dimensions)
                        (Options.height request_zero_dimensions).
Proof.
  split; [reflexivity |].
  exact (proj1 (X1_invalid_dimensions_exactly request_zero_dimensions)
               eq_refl).
Defined.

Lemma X2_invalid_format_exactly_witness :
  pictureCompress request_gif = Rejected InvalidFormat
  /\ str_truthy (Options.img request_gif) = true
  /\ ~ invalid_dimensions (Options.width request_gif)
                          (Options.height request_gif)
  /\ ~ occurs "jpg" (effective_type request_gif)
  /\ ~ occurs "png" (effective_type request_gif)
  /\ ~ occurs "jpeg" (effective_type request_gif).
Proof.
  split; [reflexivity |].
  exact (proj1 (X2_invalid_format_exactly request_gif) eq_refl).
Defined.

Lemma X3_load_started_exactly_witness :
  pictureCompress request_ajpg
  = Loading "photo.jpg" (Closure (int 100) (int 0) "ajpg"
                                 (Num (Finite 0.92)) "scale")
  /\ Options.img request_ajpg = Some "photo.jpg" /\ "photo.jpg" <> ""
  /\ ~ invalid_dimensions (Options.width request_ajpg)
                          (Options.height request_ajpg)
  /\ (occurs "jpg" (effective_type request_ajpg)
      \/ occurs "png" (effective_type request_ajpg)
      \/ occurs "jpeg" (effective_type request_ajpg)).
Proof.
  split; [reflexivity |].
  destruct (proj1 (X3_load_started_exactly request_ajpg "photo.jpg"
                     (Closure (int 100) (int 0) "ajpg" (Num (Finite 0.92))
                              "scale")) eq_refl)
    as [H1 [H2 [H3 [H4 _]]]].
  repeat split; assumption.
Defined.

(** ** Orientation codes *)




Lemma onload_resolves (k : closure) (this : image) (exif : option value) :
  onload k this exif
  = let source := Size.make (int (Z.of_N (naturalWidth this)))
                            (int (Z.of_N (naturalHeight this))) in
    let target := getDistSize source (Size.make (c_width k) (c_height k))
                              (c_fit k) (exif_orientation exif) in
    Resolve (Result.make (Size.width target) (Size.height target)
               (compress this (Size.width target) (Size.height target)
                         (c_type k) (c_quality k) (exif_orientation exif))).
Proof. reflexivity. Qed.

(** A resolved request was accepted, and its result is what [onload]
    computes from the request's own dimensions and its fit in effect. *)
Lemma settle_resolved (options : Options.t) (this : image)
  (exif : option value) (r : Result.t) :
  settle options (Loaded this exif) = Resolve r ->
  ~ negative (Options.width options)
  /\ ~ negative (Options.height options)
  /\ Resolve r
     = onload (Closure (Options.width options) (Options.height options)
                       (effective_type options)
                       (js_or (Options.quality options) (Num (Finite 0.92)))
                       (str_or (Options.fit options) "scale"))
              this exif.
Proof.
  unfold settle, pictureCompress, effective_type.
  destruct (negb (str_truthy (Options.img options))); [discriminate |].
  destruct (js_lt (Options.width options) (int 0)) eqn:Ew; [discriminate |].
  destruct (js_lt (Options.height options) (int 0)) eqn:Eh; [discriminate |].
  cbn [orb].
  destruct (js_le (js_add (Options.width options) (Options.height options))
                  (int 0)); [discriminate |].
  destruct (negb (test_jpg_png_jpeg (str_or (Options.type options) "jpg")));
    [discriminate |].
  intros <-.
  split; [apply not_lt_0_not_negative; exact Ew |].
  split; [apply not_lt_0_not_negative; exact Eh | reflexivity].
Qed.

(** ** The resolver and the renderer together *)





Lemma compress_draws img width height type quality orientation :
  draws (surface (compress img width height type quality orientation)) = []
  \/ exists dx dy,
      draws (surface (compress img width height type quality orientation))
      = [(img, (dx, dy), (width, height))].
Proof.
  unfold compress.
  destruct (ToBoolean orientation && negb (strict_eq orientation (int 1)));
    [destruct (strict_eq orientation (int 6));
     [| destruct (strict_eq orientation (int 3));
        [| destruct (strict_eq orientation (int 8))]] |];
    try (left; reflexivity); right; eexists; eexists; reflexivity.
Qed.

(** X6: the image of a resolved request was drawn at most once; what was
    drawn is the loaded image, into a destination box that is the resolved
    width by the resolved height. *)
Theorem X6_one_draw_into_the_resolved_box (options : Options.t)
  (this : image) (exif : option value) (r : Result.t) :
  settle options (Loaded this exif) = Resolve r ->
  draws (surface (Result.img r)) = []
  \/ exists dx dy,
      draws (surface (Result.img r))
      = [(this, (dx, dy), (Result.width r, Result.height r))].
Proof.
  intros Hr. apply settle_resolved in Hr. destruct Hr as [_ [_ Hr]].
  rewrite onload_resolves in Hr. injection Hr as ->.
  cbn [Result.img Result.width Result.height].
  apply compress_draws.
Qed.

Lemma X6_one_draw_into_the_resolved_box_witness :
  exists r,
    settle request_width_300 (Loaded photo (Some (int 6))) = Resolve r
    /\ draws (surface (Result.img r))
       = [(photo, (int 0, js_neg (int 300)), (int 400, int 300))]
    /\ (draws (surface (Result.img r)) = []
        \/ exists dx dy,
            draws (surface (Result.img r))
            = [(photo, (dx, dy), (Result.width r, Result.height r))]).
Proof.
  eexists. split; [reflexivity |]. split; [reflexivity |].
  exact (@X6_one_draw_into_the_resolved_box request_width_300 photo
           (Some (int 6)) _ eq_refl).
Defined.

(** X7: resolving for the orientation 6 or 8 is resolving the source with
    its dimensions exchanged for the orientation 1, and exchanging the
    dimensions of the result; this holds for every fit. *)
Theorem X7_quarter_turn_is_transposition
  (sw sh : value) (dist : Size.t) (fit : string) (orientation : value) :
  is_code orientation 6 \/ is_code orientation 8 ->
  getDistSize (Size.make sw sh) dist fit orientation
  = transpose (getDistSize (Size.make sh sw) dist fit (int 1)).
Proof.
  intro H. apply quarter_turn_spec in H. unfold quarter_turn in H.
  unfold getDistSize, transpose. rewrite H.
  cbn [Size.width Size.height].
  change (strict_eq (int 1) (int 6) || strict_eq (int 1) (int 8)) with false.
  cbn iota.
  destruct (String.eqb fit "fill"); reflexivity.
Qed.

Lemma X7_quarter_turn_is_transposition_witness :
  (is_code (int 8) 6 \/ is_code (int 8) 8)
  /\ getDistSize (Size.make (int 800) (int 600))
                 (Size.make (int 300) (int 0)) "scale" (int 8)
     = transpose (getDistSize (Size.make (int 600) (int 800))
                              (Size.make (int 300) (int 0)) "scale" (int 1))
  /\ getDistSize (Size.make (int 600) (int 800))
                 (Size.make (int 300) (int 0)) "scale" (int 1)
     = Size.make (int 300) (int 400).
Proof.
  assert (H : is_code (int 8) 6 \/ is_code (int 8) 8)
    by (right; eexists; split; reflexivity).
  split; [exact H |]. split; [| reflexivity].
  exact (@X7_quarter_turn_is_transposition (int 800) (int 600)
           (Size.make (int 300) (int 0)) "scale" (int 8) H).
Defined.

Lemma types_spec (t : string) :
  (t = "jpg" \/ t = "jpeg" -> types t = Some "image/jpeg")
  /\ (t = "png" -> types t = Some "image/png")
  /\ (t <> "jpg" -> t <> "jpeg" -> t <> "png" -> types t = None).
Proof.
  unfold types. repeat split.
  - intros [-> | ->]; reflexivity.
  - intros ->. reflexivity.
  - intros H1 H2 H3.
    apply String.eqb_neq in H1, H2, H3. rewrite H1, H2, H3. reflexivity.
Qed.

(** X8: a resolved request is encoded with the MIME type image/jpeg when its
    type in effect is jpg or jpeg (the type being jpg when absent or empty),
    with image/png when it is png, and with no MIME type at all when it is
    any other accepted string. *)
Theorem X8_mime_of_resolved_request (options : Options.t) (this : image)
  (exif : option value) (r : Result.t) :
  settle options (Loaded this exif) = Resolve r ->
  (effective_type options = "jpg" \/ effective_type options = "jpeg" ->
   mime (Result.img r) = Some "image/jpeg")
  /\ (effective_type options = "png" ->
      mime (Result.img r) = Some "image/png")
  /\ (effective_type options <> "jpg" -> effective_type options <> "jpeg" ->
      effective_type options <> "png" -> mime (Result.img r) = None).
Proof.
  intros Hr. apply settle_resolved in Hr. destruct Hr as [_ [_ Hr]].
  rewrite onload_resolves in Hr. injection Hr as ->.
  cbn [Result.img mime compress c_type].
  apply types_spec.
Qed.

Lemma X8_mime_of_resolved_request_witness :
  exists r,
    settle request_ajpg (Loaded photo None) = Resolve r
    /\ effective_type request_ajpg <> "jpg"
    /\ effective_type request_ajpg <> "jpeg"
    /\ effective_type request_ajpg <> "png"
    /\ mime (Result.img r) = None.
Proof.
  assert (H1 : effective_type request_ajpg <> "jpg") by discriminate.
  assert (H2 : effective_type request_ajpg <> "jpeg") by discriminate.
  assert (H3 : effective_type request_ajpg <> "png") by discriminate.
  eexists. split; [reflexivity |].
  repeat (split; [assumption |]).
  exact (proj2 (proj2 (@X8_mime_of_resolved_request request_ajpg photo None
                         _ eq_refl)) H1 H2 H3).
Defined.

(** ** The resolver in scale mode: how the target sits in the request *)

Lemma round_Z_bounds (x : Q) :
  inject_Z (round_Z x) <= x + (1 # 2) /\ x + (1 # 2) < inject_Z (round_Z x) + 1.
Proof.
  unfold round_Z. split.
  - apply Qfloor_le.
  - assert (H := Qlt_floor (x + (1 # 2))).
    rewrite inject_Z_plus in H. exact H.
Qed.

Lemma round_Z_inject (x : Q) (z : Z) : x == inject_Z z -> round_Z x = z.
Proof.
  intro H. destruct (round_Z_bounds x) as [Hle Hlt].
  assert (H1 : inject_Z (round_Z x) < inject_Z (z + 1)).
  { rewrite inject_Z_plus. change (inject_Z 1) with 1. lra. }
  assert (H2 : inject_Z z < inject_Z (round_Z x + 1)).
  { rewrite inject_Z_plus. change (inject_Z 1) with 1. lra. }
  rewrite <- Zlt_Qlt in H1, H2. lia.
Qed.



(** A Number that is +Infinity or a finite value at least 1. *)
Lemma candidate_covers (against : Z) (dv : value) :
  (0 <= against)%Z -> covers against dv ->
  match ToNumber (if ToBoolean dv
                  then js_div dv (Num (Finite (inject_Z against)))
                  else int 1) with
  | Infinity => True
  | Finite c => 1 <= c
  | _ => False
  end.
Proof.
  intros Ha Hc. apply inject_Z_nonneg in Ha.
  destruct Hc as [v Hv | d Hd |].
  - rewrite Hv. cbn [ToNumber int]. apply Qle_refl.
  - cbn [ToBoolean]. destruct (Qeq_bool d 0) eqn:Ed; cbn [negb].
    + cbn [ToNumber int]. apply Qle_refl.
    + assert (Hd0 := Qeq_bool_neq _ _ Ed).
      unfold js_div. cbn [ToNumber Number.div].
      destruct (Qeq_bool (inject_Z against) 0) eqn:Ea.
      * apply Qeq_bool_eq in Ea. rewrite Ed.
        unfold Number.is_negative. cbn [Number.lt].
        assert (Hn : Qlt_bool d 0 = false) by (apply Qlt_bool_false_iff; lra).
        rewrite Hn. exact I.
      * apply Qeq_bool_neq in Ea.
        apply Qle_shift_div_l; lra.
  - unfold js_div. cbn [ToBoolean ToNumber Number.div].
    unfold Number.is_negative. cbn [Number.lt].
    assert (Hn : Qlt_bool (inject_Z against) 0 = false)
      by (apply Qlt_bool_false_iff; exact Ha).
    rewrite Hn. exact I.
Qed.

Lemma min3_at_least_one (v1 v2 : value) :
  match ToNumber v1 with
  | Infinity => True | Finite c => 1 <= c | _ => False end ->
  match ToNumber v2 with
  | Infinity => True | Finite c => 1 <= c | _ => False end ->
  exists s : Q, Math_min [v1; v2; int 1] = Num (Finite s) /\ s == 1.
Proof.
  unfold Math_min. cbn [fold_left ToNumber int].
  change (inject_Z 1) with 1%Q.
  destruct (ToNumber v1) as [| |c1|]; try contradiction;
    destruct (ToNumber v2) as [| |c2|]; try contradiction;
    cbn [Number.min Number.lt]; intros H1 H2;
    repeat split_Qlt;
    eexists; (split; [reflexivity |]); lra.
Qed.

(** For a request that covers the source the scale factor is 1. *)
Lemma covering_scale_factor
  (sw sh : Z) (dist : Size.t) (orientation : value) :
  (0 <= sw)%Z -> (0 <= sh)%Z ->
  covers (if quarter_turn orientation then sh else sw) (Size.width dist) ->
  covers (if quarter_turn orientation then sw else sh) (Size.height dist) ->
  exists s : Q,
    getDistSize_scale (Size.make (int sw) (int sh)) dist orientation
    = Num (Finite s) /\ s == 1.
Proof.
  intros Hsw Hsh Cw Ch.
  unfold getDistSize_scale. fold (quarter_turn orientation).
  cbn [Size.width Size.height].
  destruct (quarter_turn orientation);
    apply min3_at_least_one; apply candidate_covers; assumption.
Qed.

(** X10: the resolver never enlarges.  In scale mode, when each requested
    dimension is unconstrained (falsy) or at least the source dimension it
    is compared with, the target is the source size: the scale factor is
    1. *)
Theorem X10_covering_request_keeps_source_size
  (sw sh : Z) (dist : Size.t) (fit : string) (orientation : value) :
  (0 <= sw)%Z -> (0 <= sh)%Z -> fit <> "fill" ->
  covers (if quarter_turn orientation then sh else sw) (Size.width dist) ->
  covers (if quarter_turn orientation then sw else sh) (Size.height dist) ->
  getDistSize (Size.make (int sw) (int sh)) dist fit orientation
  = Size.make (int sw) (int sh).
Proof.
  intros Hsw Hsh Hfit Cw Ch.
  destruct (covering_scale_factor dist orientation Hsw Hsh Cw Ch)
    as [s [Hs H1]].
  etransitivity;
    [exact (@scale_mode_result (inject_Z sw) (inject_Z sh) s dist fit
              orientation Hfit Hs) |].
  f_equal; f_equal; apply round_Z_inject; rewrite H1; ring.
Qed.

Lemma X10_covering_request_keeps_source_size_witness :
  (0 <= 800)%Z /\ (0 <= 600)%Z /\ "contain" <> "fill"
  /\ covers 600 (int 1000) /\ covers 800 (int 0)
  /\ getDistSize (Size.make (int 800) (int 600))
                 (Size.make (int 1000) (int 0)) "contain" (int 6)
     = Size.make (int 800) (int 600).
Proof.
  assert (H1 : (0 <= 800)%Z) by lia.
  assert (H2 : (0 <= 600)%Z) by lia.
  assert (H3 : "contain" <> "fill") by discriminate.
  assert (H4 : covers 600 (int 1000))
    by (apply covers_finite; vm_compute; discriminate).
  assert (H5 : covers 800 (int 0))
    by (apply covers_unconstrained; reflexivity).
  repeat (split; [assumption |]).
  exact (@X10_covering_request_keeps_source_size 800 600
           (Size.make (int 1000) (int 0)) "contain" (int 6) H1 H2 H3 H4 H5).
Defined.







(** ** The resolver in scale mode: stability and monotonicity *)




Lemma num_le_refl (c : number) : nonneg_ext c -> num_le c c.
Proof. destruct c; simpl; trivial. intros _. apply Qle_refl. Qed.

Lemma candidate_mono (against : Q) (dv dv' : value) :
  0 <= against -> ~ negative dv -> at_least_as_large dv dv' ->
  nonneg_ext (ToNumber (if ToBoolean dv
                        then js_div dv (Num (Finite against)) else int 1))
  /\ nonneg_ext (ToNumber (if ToBoolean dv'
                           then js_div dv' (Num (Finite against))
                           else int 1))
  /\ num_le (ToNumber (if ToBoolean dv
                       then js_div dv (Num (Finite against)) else int 1))
            (ToNumber (if ToBoolean dv'
                       then js_div dv' (Num (Finite against)) else int 1)).
Proof.
  intros Ha Hn Hl. destruct Hl as [v | d d' Hd Hdd'].
  - destruct (candidate_bound Ha Hn) as [N _].
    split; [exact N |]. split; [exact N |]. apply num_le_refl. exact N.
  - assert (Hn' : ~ negative (Num (Finite d'))).
    { intro H. inversion H; subst. lra. }
    destruct (candidate_bound Ha Hn) as [N _].
    destruct (candidate_bound Ha Hn') as [N' _].
    split; [exact N |]. split; [exact N' |].
    cbn [ToBoolean].
    assert (E : Qeq_bool d 0 = false).
    { destruct (Qeq_bool d 0) eqn:E; [| reflexivity].
      apply Qeq_bool_eq in E. lra. }
    assert (E' : Qeq_bool d' 0 = false).
    { destruct (Qeq_bool d' 0) eqn:E'; [| reflexivity].
      apply Qeq_bool_eq in E'. lra. }
    rewrite E, E'. cbn [negb]. unfold js_div. cbn [ToNumber Number.div].
    rewrite E, E'.
    destruct (Qeq_bool against 0) eqn:Ea.
    + unfold Number.is_negative. cbn [Number.lt].
      assert (L : Qlt_bool d 0 = false) by (apply Qlt_bool_false_iff; lra).
      assert (L' : Qlt_bool d' 0 = false) by (apply Qlt_bool_false_iff; lra).
      rewrite L, L'. exact I.
    + apply Qeq_bool_neq in Ea. cbn [num_le].
      assert (Hpos : 0 < against) by lra.
      apply Qmult_le_compat_r; [exact Hdd' |].
      apply Qinv_le_0_compat. exact Ha.
Qed.

Lemma min3_mono (v1 v2 v1' v2' : value) :
  nonneg_ext (ToNumber v1) -> nonneg_ext (ToNumber v2) ->
  nonneg_ext (ToNumber v1') -> nonneg_ext (ToNumber v2') ->
  num_le (ToNumber v1) (ToNumber v1') ->
  num_le (ToNumber v2) (ToNumber v2') ->
  exists s s' : Q,
    Math_min [v1; v2; int 1] = Num (Finite s)
    /\ Math_min [v1'; v2'; int 1] = Num (Finite s')
    /\ 0 <= s /\ s <= s'.
Proof.
  unfold Math_min. cbn [fold_left ToNumber int].
  change (inject_Z 1) with 1%Q.
  destruct (ToNumber v1) as [| |c1|]; try contradiction;
    destruct (ToNumber v2) as [| |c2|]; try contradiction;
    destruct (ToNumber v1') as [| |c1'|]; try contradiction;
    destruct (ToNumber v2') as [| |c2'|]; try contradiction;
    cbn [nonneg_ext num_le Number.min Number.lt];
    intros N1 N2 N1' N2' L1 L2; try contradiction;
    repeat split_Qlt;
    eexists; eexists; (split; [reflexivity |]); (split; [reflexivity |]);
    split; lra.
Qed.

Lemma round_Z_mono (x y : Q) : x <= y -> (round_Z x <= round_Z y)%Z.
Proof.
  intro H. unfold round_Z. apply Qfloor_resp_le. lra.
Qed.

(** X14: a larger request never gives a smaller target.  In scale mode, for
    a source with non-negative dimensions, when each requested dimension
    is kept or replaced by a larger positive one, neither target dimension
    decreases. *)
Theorem X14_larger_request_no_smaller_target
  (sw sh : Q) (dist dist' : Size.t) (fit : string) (orientation : value) :
  0 <= sw -> 0 <= sh -> fit <> "fill" ->
  ~ negative (Size.width dist) -> ~ negative (Size.height dist) ->
  at_least_as_large (Size.width dist) (Size.width dist') ->
  at_least_as_large (Size.height dist) (Size.height dist') ->
  exists W H W' H' : Z,
    getDistSize (Size.make (Num (Finite sw)) (Num (Finite sh))) dist fit
                orientation
    = Size.make (int W) (int H)
    /\ getDistSize (Size.make (Num (Finite sw)) (Num (Finite sh))) dist' fit
                   orientation
       = Size.make (int W') (int H')
    /\ (W <= W')%Z /\ (H <= H')%Z.
Proof.
  intros Hsw Hsh Hfit Hdw Hdh Lw Lh.
  assert (Hs : exists s s' : Q,
    getDistSize_scale (Size.make (Num (Finite sw)) (Num (Finite sh))) dist
                      orientation = Num (Finite s)
    /\ getDistSize_scale (Size.make (Num (Finite sw)) (Num (Finite sh))) dist'
                         orientation = Num (Finite s')
    /\ 0 <= s /\ s <= s').
  { unfold getDistSize_scale. cbn [Size.width Size.height].
    destruct (strict_eq orientation (int 6) || strict_eq orientation (int 8)).
    - destruct (candidate_mono Hsh Hdw Lw) as [N1 [N1' L1]].
      destruct (candidate_mono Hsw Hdh Lh) as [N2 [N2' L2]].
      exact (min3_mono _ _ _ _ N1 N2 N1' N2' L1 L2).
    - destruct (candidate_mono Hsw Hdw Lw) as [N1 [N1' L1]].
      destruct (candidate_mono Hsh Hdh Lh) as [N2 [N2' L2]].
      exact (min3_mono _ _ _ _ N1 N2 N1' N2' L1 L2). }
  destruct Hs as [s [s' [Hs [Hs' [H0 Hle]]]]].
  exists (round_Z (sw * s)), (round_Z (sh * s)),
         (round_Z (sw * s')), (round_Z (sh * s')).
  split; [apply scale_mode_result; assumption |].
  split; [apply scale_mode_result; assumption |].
  split; apply round_Z_mono; nra.
Qed.

Lemma X14_larger_request_no_smaller_target_witness :
  0 <= 800 /\ 0 <= 600 /\ "scale" <> "fill"
  /\ ~ negative (int 300) /\ ~ negative undefined
  /\ at_least_as_large (int 300) (int 500)
  /\ at_least_as_large undefined undefined
  /\ getDistSize (Size.make (int 800) (int 600))
                 (Size.make (int 300) undefined) "scale" (int 1)
     = Size.make (int 300) (int 225)
  /\ getDistSize (Size.make (int 800) (int 600))
                 (Size.make (int 500) undefined) "scale" (int 1)
     = Size.make (int 500) (int 375)
  /\ exists W H W' H' : Z,
      getDistSize (Size.make (Num (Finite 800)) (Num (Finite 600)))
                  (Size.make (int 300) undefined) "scale" (int 1)
      = Size.make (int W) (int H)
      /\ getDistSize (Size.make (Num (Finite 800)) (Num (Finite 600)))
                     (Size.make (int 500) undefined) "scale" (int 1)
         = Size.make (int W') (int H')
      /\ (W <= W')%Z /\ (H <= H')%Z.
Proof.
  assert (H1 : 0 <= 800) by (vm_compute; discriminate).
  assert (H2 : 0 <= 600) by (vm_compute; discriminate).
  assert (H3 : "scale" <> "fill") by discriminate.
  assert (H4 : ~ negative (int 300)) by (apply int_not_negative; lia).
  assert (H5 : ~ negative undefined) by (intro H; inversion H).
  assert (H6 : at_least_as_large (int 300) (int 500))
    by (apply larger_request; [reflexivity | vm_compute; discriminate]).
  assert (H7 : at_least_as_large undefined undefined) by constructor.
  repeat (split; [assumption || reflexivity |]).
  exact (@X14_larger_request_no_smaller_target 800 600
           (Size.make (int 300) undefined) (Size.make (int 500) undefined)
           "scale" (int 1) H1 H2 H3 H4 H5 H6 H7).
Defined.
